(** * Event handling in two React components

    A shallow embedding of [src/components/MultiButton.tsx] and
    [src/components/Login.tsx].  Handlers and render functions are programs
    of a small monad that threads the store of event objects, accumulates
    the observable effects in the order they happen, and may complete
    abruptly with a JavaScript exception. *)

From stdpp Require Import gmap strings list pretty.

Local Open Scope string_scope.
Set Warnings "-register-all".

(** ** The JavaScript fragment the components use *)

Module Js.

(** References to objects of the store. *)
Definition loc := positive.

(** Language values that can reach a handler.  A [VNumber] stands for an
    integer-valued number, meant for the safe integers, which print as
    their decimal numeral; an object is known by its reference and is an
    ordinary object, as the host's event objects are. *)
Inductive value : Type :=
| VUndefined
| VNull
| VBool (b : bool)
| VNumber (n : Z)
| VString (s : string)
| VSymbol (description : string)
| VObject (l : loc).

(** The interaction event handed to a callback: the kind of gesture, the
    flag that [preventDefault] raises, and the current contents of the
    named inputs of the element the gesture was made on. *)
Record event_object : Type := EventObject {
  eventType : string;
  defaultPrevented : bool;
  targetFields : list (string * string)
}.

Definition prevented (ev : event_object) : event_object :=
  {| eventType := eventType ev;
     defaultPrevented := true;
     targetFields := targetFields ev |}.

Definition with_fields (fs : list (string * string)) (ev : event_object)
  : event_object :=
  {| eventType := eventType ev;
     defaultPrevented := defaultPrevented ev;
     targetFields := fs |}.

Inductive error : Type :=
| TypeError (message : string).

(** What an observer of the page can see, in order of occurrence. *)
Inductive effect : Type :=
| Emit (message : string)                      (* console.log *)
| CancelDefault (l : loc)                      (* event.preventDefault() *)
| Navigate (query : list (string * string)).   (* default action of a form *)

Inductive completion (A : Type) : Type :=
| Normal (a : A)
| Throw (e : error).
Arguments Normal {A} a.
Arguments Throw {A} e.

Record outcome (A : Type) : Type := Outcome {
  result : completion A;
  final : gmap loc event_object;
  effects : list effect
}.
Arguments Outcome {A} result final effects.
Arguments result {A} o.
Arguments final {A} o.
Arguments effects {A} o.

Definition M (A : Type) : Type := gmap loc event_object → outcome A.

Definition ret {A} (a : A) : M A := λ h, Outcome (Normal a) h [].

Definition throw {A} (e : error) : M A := λ h, Outcome (Throw e) h [].

Definition bind {A B} (m : M A) (k : A → M B) : M B := λ h,
  let o := m h in
  match result o with
  | Normal a =>
      let o' := k a (final o) in
      Outcome (result o') (final o') (effects o ++ effects o')
  | Throw e => Outcome (Throw e) (final o) (effects o)
  end.

(** [finally m k] runs [k] after [m] whether or not [m] threw, and
    completes as [m] did unless [k] itself throws. *)
Definition finally {A} (m : M A) (k : M unit) : M A := λ h,
  let o := m h in
  let o' := k (final o) in
  Outcome (match result o' with
           | Normal _ => result o
           | Throw e => Throw e
           end)
          (final o') (effects o ++ effects o').

#[global] Instance M_ret : MRet M := @ret.
#[global] Instance M_bind : MBind M := λ A B k m, bind m k.

(** The messages written to the console, oldest first. *)
Fixpoint emitted (fx : list effect) : list string :=
  match fx with
  | [] => []
  | Emit s :: fx' => s :: emitted fx'
  | _ :: fx' => emitted fx'
  end.

Fixpoint cancellations (fx : list effect) : list loc :=
  match fx with
  | [] => []
  | CancelDefault l :: fx' => l :: cancellations fx'
  | _ :: fx' => cancellations fx'
  end.

Fixpoint navigations (fx : list effect) : nat :=
  match fx with
  | [] => 0
  | Navigate _ :: fx' => S (navigations fx')
  | _ :: fx' => navigations fx'
  end.

(** [console.log] of a string. *)
Definition console_log (s : string) : M unit :=
  λ h, Outcome (Normal tt) h [Emit s].

(** The conversion a template literal applies to an interpolated value.
    An event object has no [toString] of its own and prints as
    [[object Object]]; a symbol cannot be converted. *)
Definition toString (v : value) : M string :=
  match v with
  | VUndefined => ret "undefined"
  | VNull => ret "null"
  | VBool true => ret "true"
  | VBool false => ret "false"
  | VNumber n => ret (pretty n)
  | VString s => ret s
  | VSymbol _ => throw (TypeError "Cannot convert a Symbol value to a string")
  | VObject _ => ret "[object Object]"
  end.

(** The method call [event.preventDefault()]. *)
Definition preventDefault (event : value) : M unit :=
  match event with
  | VObject l => λ h,
      match h !! l with
      | Some ev => Outcome (Normal tt) (<[l := prevented ev]> h) [CancelDefault l]
      | None => Outcome (Throw (TypeError "event.preventDefault is not a function")) h []
      end
  | VUndefined | VNull =>
      throw (TypeError "Cannot read properties of undefined or null")
  | _ => throw (TypeError "event.preventDefault is not a function")
  end.

(** [String.prototype.includes]. *)
Fixpoint includes (needle hay : string) : bool :=
  String.prefix needle hay ||
  match hay with
  | EmptyString => false
  | String _ hay' => includes needle hay'
  end.

(** A rendered tree: text, or an element with its attributes and children.
    An attribute holds a string, a callback, or nothing. *)
Inductive prop_value : Type :=
| PString (s : string)
| PHandler (f : value → M unit)
| PUndefined.

Inductive node : Type :=
| Text (s : string)
| Element (tag : string) (props : list (string * prop_value))
          (children : list node).

End Js.

Import Js.

(** ** src/components/MultiButton.tsx *)

Module MultiButtonTsx.

Definition handleClick (number : value) : M unit :=
  s ← toString number;
  console_log ("Button " +:+ s +:+ " was clicked").

Definition MultiButton : M node :=
  mret (Element "div" []
    [ Element "button" [("onClick", PHandler handleClick)] [Text "Button 1"];
      Element "button" [("onClick", PHandler handleClick)] [Text "Button 2"];
      Element "button" [("onClick", PHandler handleClick)] [Text "Button 3"] ]).

End MultiButtonTsx.

(** ** src/components/Login.tsx *)

Module LoginTsx.

Definition handleSubmit (event : value) : M unit :=
  preventDefault event;;
  console_log "I submit".

Definition Login : M node :=
  mret (Element "form" [("onSubmit", PHandler handleSubmit)]
    [ Element "input" [("type", PString "text");
                       ("name", PString "username");
                       ("placeholder", PString "Enter username...")] [];
      Element "input" [("type", PString "password");
                       ("name", PString "password");
                       ("placeholder", PString "Enter password...")] [];
      Element "button" [] [Text "Login"] ]).

End LoginTsx.

(** ** The lesson's later versions of MultiButton

    The prose that accompanies the components (in the source after
    [Login.tsx]) states what the buttons are meant to do, "when one of the
    buttons is clicked, we want the callback to log the button's number",
    and gives two further versions of the component. *)

Module Lesson.
Import MultiButtonTsx.

(** [onClick={handleClick(1)}]: the call is made while rendering and its
    result, [undefined], becomes the attribute. *)
Definition MultiButton_invoking : M node :=
  handleClick (VNumber 1);;
  handleClick (VNumber 2);;
  handleClick (VNumber 3);;
  mret (Element "div" []
    [ Element "button" [("onClick", PUndefined)] [Text "Button 1"];
      Element "button" [("onClick", PUndefined)] [Text "Button 2"];
      Element "button" [("onClick", PUndefined)] [Text "Button 3"] ]).

(** [onClick={() => handleClick(n)}]: the callback bound to button [n]. *)
Definition bound (n : Z) : value → M unit :=
  λ _, handleClick (VNumber n).

Definition MultiButton_binding : M node :=
  mret (Element "div" []
    [ Element "button" [("onClick", PHandler (bound 1))] [Text "Button 1"];
      Element "button" [("onClick", PHandler (bound 2))] [Text "Button 2"];
      Element "button" [("onClick", PHandler (bound 3))] [Text "Button 3"] ]).

End Lesson.

(** ** The host environment

    What the view framework and the browser do around the components:
    look up the callback registered on an element, build the event object,
    call the callback with it and, for a form, carry out the default
    action unless the callback cancelled it. *)

Module Host.

Fixpoint assoc {A} (name : string) (ps : list (string * A)) : option A :=
  match ps with
  | [] => None
  | (k, v) :: ps' => if String.eqb k name then Some v else assoc name ps'
  end.

Definition prop (name : string) (n : node) : option prop_value :=
  match n with
  | Text _ => None
  | Element _ props _ => assoc name props
  end.

Definition children (n : node) : list node :=
  match n with
  | Text _ => []
  | Element _ _ cs => cs
  end.

Definition tag_is (t : string) (n : node) : bool :=
  match n with
  | Text _ => false
  | Element t' _ _ => String.eqb t t'
  end.

Fixpoint textContent (n : node) : string :=
  match n with
  | Text s => s
  | Element _ _ cs =>
      (fix all (cs : list node) : string :=
         match cs with
         | [] => ""
         | c :: cs' => textContent c +:+ all cs'
         end) cs
  end.

(** The buttons of a rendered tree, in document order. *)
Definition triggers (tree : node) : list node :=
  filter (λ c, tag_is "button" c = true) (children tree).

(** Trigger [n] is the button labelled [Button n]. *)
Definition label (n : Z) : string := "Button " +:+ pretty n.

Definition trigger (tree : node) (n : Z) : option node :=
  find (λ c, String.eqb (textContent c) (label n)) (triggers tree).

Definition handler (name : string) (n : node) : option (value → M unit) :=
  match prop name n with
  | Some (PHandler f) => Some f
  | _ => None
  end.

(** A new event object, at a reference not yet in use. *)
Definition alloc (ev : event_object) : M value := λ h,
  let l := fresh (dom h) in
  Outcome (Normal (VObject l)) (<[l := ev]> h) [].

Definition call (f : option (value → M unit)) (event : value) : M unit :=
  match f with
  | Some f => f event
  | None => mret tt
  end.

(** A click on one element. *)
Definition click (target : node) : M unit :=
  event ← alloc (EventObject "click" false []);
  call (handler "onClick" target) event.

Definition activate (tree : node) (n : Z) : M unit :=
  match trigger tree n with
  | Some button => click button
  | None => mret tt
  end.

(** The names of the inputs of a form. *)
Definition input_names (form : node) : list string :=
  omap (λ c, if tag_is "input" c
             then match prop "name" c with
                  | Some (PString s) => Some s
                  | _ => None
                  end
             else None) (children form).

(** The default action of a submission: navigate with the field contents,
    unless the event was cancelled. *)
Definition default_action (event : value) : M unit := λ h,
  match event with
  | VObject l =>
      match h !! l with
      | Some ev =>
          if defaultPrevented ev then Outcome (Normal tt) h []
          else Outcome (Normal tt) h [Navigate (targetFields ev)]
      | None => Outcome (Normal tt) h []
      end
  | _ => Outcome (Normal tt) h []
  end.

(** Submission of a form whose input [name] holds [typed name]. *)
Definition submit (form : node) (typed : string → string) : M unit :=
  event ← alloc (EventObject "submit" false
                   ((λ name, (name, typed name)) <$> input_names form));
  finally (call (handler "onSubmit" form) event) (default_action event).

(** Render a component, then make one gesture on what it rendered. *)
Definition render_then {A} (component : M node) (gesture : node → M A)
  : M A :=
  tree ← component; gesture tree.

(** [passes k component] renders the component [k] times in a row. *)
Fixpoint passes (k : nat) (component : M node) : M unit :=
  match k with
  | O => mret tt
  | S k' => component;; passes k' component
  end.

End Host.

Import MultiButtonTsx LoginTsx Lesson Host.

(** ** Vocabulary of the statements *)

(** The event a submission of the login form creates when input [name]
    holds [typed name]. *)
Definition submit_event (typed : string → string) : event_object :=
  EventObject "submit" false
    [("username", typed "username"); ("password", typed "password")].

(** The arguments [handleClick] can be given: a number, as its signature
    declares, or the event object the host passes to an [onClick] callback. *)
Definition well_formed_argument (v : value) : bool :=
  match v with
  | VNumber _ | VObject _ => true
  | _ => false
  end.

(** Render MultiButton, then click the button labelled [Button n]. *)
Definition press (n : Z) : M unit :=
  render_then MultiButton (λ tree, activate tree n).

(** The same gesture on the lesson's version with bound callbacks. *)
Definition press_binding (n : Z) : M unit :=
  render_then MultiButton_binding (λ tree, activate tree n).

(** Render Login, then submit the form with the given field contents. *)
Definition send (typed : string → string) : M unit :=
  render_then Login (λ form, submit form typed).

Definition blank : string → string := λ _, "".

(** ** The other components of the lesson

    The components the lesson text (in the source after [Login.tsx]) builds
    up to the two above. *)

Module Examples.

(** [function tickle() { console.log("Teehee!"); }] *)
Definition tickle (event : value) : M unit :=
  console_log "Teehee!".

(** [<button>Tickle me!</button>]: the function exists, nothing calls it. *)
Definition Tickler_unwired : M node :=
  mret (Element "button" [] [Text "Tickle me!"]).

(** [<button onClick={tickle}>Tickle me!</button>] *)
Definition Tickler : M node :=
  mret (Element "button" [("onClick", PHandler tickle)] [Text "Tickle me!"]).

(** [<button onClick={() => console.log("Teehee!")}>Tickle me!</button>] *)
Definition Tickler_inline : M node :=
  mret (Element "button"
          [("onClick", PHandler (λ _, console_log "Teehee!"))]
          [Text "Tickle me!"]).

(** [function handleClick() { console.log("click"); }] of [App] and of
    [Clickable]. *)
Definition logClick (event : value) : M unit :=
  console_log "click".

(** [function Clickable() { return <button>Click Me</button>; }]: the
    attributes given to the component are not looked at. *)
Definition Clickable_deaf (props : list (string * prop_value)) : M node :=
  mret (Element "button" [] [Text "Click Me"]).

(** [function Clickable({ onClick }) {
       return <button onClick={onClick}>Click Me</button>; }] *)
Definition Clickable (props : list (string * prop_value)) : M node :=
  mret (Element "button"
          [("onClick", default PUndefined (assoc "onClick" props))]
          [Text "Click Me"]).

(** [<Clickable onClick={handleClick} />] with either [Clickable]. *)
Definition App_deaf : M node :=
  Clickable_deaf [("onClick", PHandler logClick)].

Definition App : M node :=
  Clickable [("onClick", PHandler logClick)].

(** [event.target.name] and [event.target.value], for the change events
    the host raises on a named input or select: their one field holds the
    name and the content of that element.  Reading a property of what is
    not an object throws. *)
Definition target_property (pick : string * string → string)
    (event : value) : M value :=
  match event with
  | VObject l => λ h,
      match h !! l with
      | Some ev =>
          Outcome (Normal match targetFields ev with
                          | field :: _ => VString (pick field)
                          | [] => VUndefined
                          end) h []
      | None =>
          Outcome (Throw (TypeError "Cannot read properties of undefined")) h []
      end
  | _ => throw (TypeError "Cannot read properties of undefined")
  end.

(** [console.log(`${event.target.name}: ${event.target.value}`)] *)
Definition handleChange (event : value) : M unit :=
  name ← target_property fst event;
  sn ← toString name;
  content ← target_property snd event;
  sc ← toString content;
  console_log (sn +:+ ": " +:+ sc).

Definition ChangeItUp : M node :=
  mret (Element "div" []
    [ Element "input" [("type", PString "text");
                       ("name", PString "search");
                       ("onChange", PHandler handleChange);
                       ("placeholder", PString "Enter search term...")] [];
      Element "select" [("name", PString "filter");
                        ("onChange", PHandler handleChange)]
        [ Element "option" [("value", PString "all")]
            [Text "Select a filter..."];
          Element "option" [("value", PString "completed")]
            [Text "Completed"];
          Element "option" [("value", PString "incomplete")]
            [Text "Incomplete"] ] ]).

End Examples.

Import Examples.

(** ** Gestures in sequence *)

(** The change event the host raises on an element that has come to hold
    [content]; it raises one only for a content that is [deliverable]. *)
Definition change (target : node) (content : string) : M unit :=
  event ← alloc (EventObject "change" false
                   [(match prop "name" target with
                     | Some (PString s) => s
                     | _ => ""
                     end, content)]);
  call (handler "onChange" target) event.

(** The child of a rendered tree that carries the given name. *)
Definition named (name : string) (tree : node) : option node :=
  find (λ c, match prop "name" c with
             | Some (PString s) => String.eqb s name
             | _ => false
             end) (children tree).

(** Render ChangeItUp, then change the element called [name]. *)
Definition edit (name content : string) : M unit :=
  render_then ChangeItUp (λ tree,
    match named name tree with
    | Some target => change target content
    | None => mret tt
    end).

(** [times k gesture] makes the gesture [k] times in a row. *)
Fixpoint times (k : nat) (gesture : M unit) : M unit :=
  match k with
  | O => mret tt
  | S k' => gesture;; times k' gesture
  end.

(** What a user does on a page that shows both components. *)
Inductive gesture : Type :=
| Press (n : Z)
| Send (typed : string → string).

Definition perform (g : gesture) : M unit :=
  match g with
  | Press n => press n
  | Send typed => send typed
  end.

Fixpoint session (gs : list gesture) : M unit :=
  match gs with
  | [] => mret tt
  | g :: gs' => perform g;; session gs'
  end.

(** The number of submissions in a sequence of gestures. *)
Fixpoint sends (gs : list gesture) : nat :=
  match gs with
  | [] => 0
  | Send _ :: gs' => S (sends gs')
  | Press _ :: gs' => sends gs'
  end.

(** [Number.isSafeInteger]. *)
Definition safe_integer (n : Z) : bool :=
  bool_decide (Z.abs n ≤ 2 ^ 53 - 1)%Z.

(** Line feed or carriage return somewhere in a string. *)
Fixpoint has_line_break (s : string) : bool :=
  match s with
  | EmptyString => false
  | String c s' =>
      Ascii.eqb c (Stdlib.Strings.Ascii.ascii_of_nat 10)
      || Ascii.eqb c (Stdlib.Strings.Ascii.ascii_of_nat 13)
      || has_line_break s'
  end.

(** The values of the options of a select, in document order. *)
Definition option_values (select : node) : list string :=
  omap (λ c, if tag_is "option" c
             then match prop "value" c with
                  | Some (PString s) => Some s
                  | _ => None
                  end
             else None) (children select).

(** The contents for which the host raises a change event on a freshly
    rendered element: for a text input, a text without line breaks other
    than the empty one it starts with; for a select, the value of an option
    other than the first, which it starts with. *)
Definition deliverable (target : node) (content : string) : bool :=
  if tag_is "input" target
  then negb (String.eqb content "") && negb (has_line_break content)
  else if tag_is "select" target
  then bool_decide (content ∈ tail (option_values target))
  else false.

(** ** Running the handlers *)

Lemma handleClick_final v h : final (handleClick v h) = h.
Proof. destruct v as [| |[]| | | |]; reflexivity. Qed.

Lemma handleSubmit_run l ev h :
  h !! l = Some ev →
  handleSubmit (VObject l) h
  = Outcome (Normal tt) (<[l := prevented ev]> h)
            [CancelDefault l; Emit "I submit"].
Proof.
  intros Hl. unfold handleSubmit, mbind, M_bind, bind, preventDefault.
  rewrite Hl. reflexivity.
Qed.

Lemma handleSubmit_dangling l h :
  h !! l = None →
  handleSubmit (VObject l) h
  = Outcome (Throw (TypeError "event.preventDefault is not a function")) h [].
Proof.
  intros Hl. unfold handleSubmit, mbind, M_bind, bind, preventDefault.
  rewrite Hl. reflexivity.
Qed.

Lemma submit_run form typed h :
  handler "onSubmit" form = Some handleSubmit →
  input_names form = ["username"; "password"] →
  submit form typed h
  = Outcome (Normal tt)
      (<[fresh (dom h) := prevented (submit_event typed)]> h)
      [CancelDefault (fresh (dom h)); Emit "I submit"].
Proof.
  intros Hf Hn. unfold submit. rewrite Hf, Hn.
  unfold mbind, M_bind, bind, alloc, finally, call.
  cbn [result final effects fmap list_fmap].
  rewrite (handleSubmit_run _ (submit_event typed)) by apply lookup_insert_eq.
  cbn [result final effects default_action]. rewrite lookup_insert_eq.
  cbn. rewrite insert_insert_eq. reflexivity.
Qed.

Lemma send_run typed h :
  send typed h
  = Outcome (Normal tt)
      (<[fresh (dom h) := prevented (submit_event typed)]> h)
      [CancelDefault (fresh (dom h)); Emit "I submit"].
Proof.
  unfold send, render_then, mbind, M_bind, bind.
  cbn [Login mret M_ret ret result final effects].
  rewrite submit_run by reflexivity. reflexivity.
Qed.

(** The model tells the three versions of the component apart. *)

Lemma binding_version_logs_number h :
  emitted (effects (press_binding 1 h)) = ["Button 1 was clicked"] ∧
  emitted (effects (press_binding 2 h)) = ["Button 2 was clicked"] ∧
  emitted (effects (press_binding 3 h)) = ["Button 3 was clicked"].
Proof. repeat split. Qed.

Lemma invoking_version_logs_while_rendering h :
  emitted (effects (MultiButton_invoking h))
  = ["Button 1 was clicked"; "Button 2 was clicked"; "Button 3 was clicked"].
Proof. reflexivity. Qed.

Lemma form_without_callback_navigates typed h :
  navigations
    (effects (submit (Element "form" []
                [Element "input" [("name", PString "username")] []]) typed h))
  = 1.
Proof.
  unfold submit, mbind, M_bind, bind, alloc, finally, call.
  cbn [result final effects default_action handler prop assoc String.eqb
       mret M_ret ret].
  rewrite lookup_insert_eq. reflexivity.
Qed.

(** ** MultiButton *)

(** C1: the specification asks that activating trigger n emit exactly one
    message that contains n and none that contains another identifier,
    "Button 2 was clicked" for trigger 2.  The component registers
    [handleClick] itself, so the host calls it with the click event, not
    with the number its signature declares: from every store,
    activating trigger 1, 2 or 3 emits the single message
    "Button [object Object] was clicked", which is not "Button 2 was
    clicked" and contains none of the three identifiers. *)
Theorem press_logs_the_event_object (h : gmap loc event_object) :
  Forall (λ n, result (press n h) = Normal tt ∧
               emitted (effects (press n h))
               = ["Button [object Object] was clicked"]) [1; 2; 3]%Z ∧
  emitted (effects (press 2 h)) ≠ ["Button 2 was clicked"] ∧
  Forall (λ n, Forall (λ msg, includes (pretty n) msg = false)
                      (emitted (effects (press n h)))) [1; 2; 3]%Z.
Proof.
  split; [| split].
  - repeat constructor.
  - discriminate.
  - repeat constructor.
Qed.

(** C2: rendering MultiButton runs no handler.  From every store a render
    pass completes normally, leaves the store as it was and has no effect
    at all, so it emits no message; the same holds for any number of
    passes in a row. *)
Theorem rendering_emits_nothing (h : gmap loc event_object) :
  (∃ tree, MultiButton h = Outcome (Normal tree) h []) ∧
  emitted (effects (MultiButton h)) = [] ∧
  ∀ k, passes k MultiButton h = Outcome (Normal tt) h [].
Proof.
  split; [eexists; reflexivity | split; [reflexivity |]].
  induction k as [| k IH]; [reflexivity |].
  cbn [passes]. unfold mbind, M_bind, bind in *.
  cbn [MultiButton mret M_ret ret result final effects].
  rewrite IH. reflexivity.
Qed.

(** C3: the specification asks that each trigger carry a unique identifier
    and that its handler be bound to that identifier by a closure.  The three
    buttons are labelled "Button 1", "Button 2", "Button 3", without
    repetition, but the callback registered on trigger n is [handleClick]
    itself and not the closure [bound n] of the lesson: on the click event
    [handleClick] logs the event object, where [bound n] logs n. *)
Theorem triggers_share_unbound_handler (h : gmap loc event_object) :
  ∃ tree,
    result (MultiButton h) = Normal tree ∧
    textContent <$> triggers tree = [label 1; label 2; label 3] ∧
    NoDup (textContent <$> triggers tree) ∧
    Forall (λ n, ∃ button,
              trigger tree n = Some button ∧
              handler "onClick" button = Some handleClick ∧
              ∀ l h',
                emitted (effects (handleClick (VObject l) h'))
                = ["Button [object Object] was clicked"] ∧
                emitted (effects (bound n (VObject l) h'))
                = ["Button " +:+ pretty n +:+ " was clicked"] ∧
                handleClick (VObject l) h' ≠ bound n (VObject l) h')
           [1; 2; 3]%Z.
Proof.
  eexists. split; [reflexivity |]. split; [reflexivity |]. split.
  - apply (bool_decide_unpack _). reflexivity.
  - repeat constructor; eexists; (split; [reflexivity |]);
      (split; [reflexivity |]); intros l h';
      (split; [reflexivity |]); (split; [reflexivity |]); discriminate.
Qed.

(** C7: on every well-formed argument, a number or an event object,
    [handleClick] completes normally from every store, having emitted its
    one message; no exception is raised. *)
Theorem handleClick_completes (v : value) (h : gmap loc event_object) :
  well_formed_argument v = true →
  ∃ msg, handleClick v h = Outcome (Normal tt) h [Emit msg].
Proof.
  destruct v; intros Hv; try discriminate Hv; eexists; reflexivity.
Qed.

Lemma handleClick_completes_witness :
  well_formed_argument (VNumber 2) = true ∧
  ∃ msg, handleClick (VNumber 2) ∅ = Outcome (Normal tt) ∅ [Emit msg].
Proof.
  split; [reflexivity |].
  apply (handleClick_completes (VNumber 2) ∅). reflexivity.
Defined.

(** A symbol is the one argument on which the interpolation throws. *)
Lemma handleClick_symbol d h :
  handleClick (VSymbol d) h
  = Outcome (Throw (TypeError "Cannot convert a Symbol value to a string")) h [].
Proof. reflexivity. Qed.

(** C10: the three buttons are registered with one and the same handler,
    [handleClick]; whichever of two triggers is activated, the host's call
    has the same outcome on every event argument and every store, and a
    click has the same effects. *)
Theorem triggers_have_identical_handler
    (n m : Z) (h : gmap loc event_object) :
  (1 ≤ n ≤ 3)%Z → (1 ≤ m ≤ 3)%Z →
  ∃ tree bn bm,
    result (MultiButton h) = Normal tree ∧
    trigger tree n = Some bn ∧ trigger tree m = Some bm ∧
    handler "onClick" bn = Some handleClick ∧
    handler "onClick" bm = Some handleClick ∧
    (∀ event h', call (handler "onClick" bn) event h'
                 = call (handler "onClick" bm) event h') ∧
    (∀ h', effects (click bn h') = effects (click bm h')).
Proof.
  intros Hn Hm.
  assert (n = 1 ∨ n = 2 ∨ n = 3)%Z as [-> | [-> | ->]] by lia;
  assert (m = 1 ∨ m = 2 ∨ m = 3)%Z as [-> | [-> | ->]] by lia;
  do 3 eexists; repeat split.
Qed.

Lemma triggers_have_identical_handler_witness :
  ∃ tree bn bm,
    result (MultiButton ∅) = Normal tree ∧
    trigger tree 1 = Some bn ∧ trigger tree 3 = Some bm ∧
    handler "onClick" bn = Some handleClick ∧
    handler "onClick" bm = Some handleClick ∧
    (∀ event h', call (handler "onClick" bn) event h'
                 = call (handler "onClick" bm) event h') ∧
    (∀ h', effects (click bn h') = effects (click bm h')).
Proof.
  apply (triggers_have_identical_handler 1 3 ∅); lia.
Defined.

(** Whatever [n] is, a press either clicks one of the three buttons or
    finds no button; which of the two does not depend on the store. *)
Lemma press_cases n :
  (∀ h, press n h
        = Outcome (Normal tt)
            (<[fresh (dom h) := EventObject "click" false []]> h)
            [Emit "Button [object Object] was clicked"]) ∨
  (∀ h, press n h = Outcome (Normal tt) h []).
Proof.
  unfold press, render_then, mbind, M_bind, bind.
  cbn [MultiButton mret M_ret ret result final effects].
  unfold activate.
  match goal with
  | |- context [trigger ?t n] => destruct (trigger t n) as [b |] eqn:Hb
  end.
  - left. intros h. apply find_some in Hb as [Hin _].
    cbn in Hin. destruct Hin as [<- | [<- | [<- | []]]]; reflexivity.
  - right. reflexivity.
Qed.

(** ** Login *)

(** C4: whatever the two inputs hold, also when both are empty, submitting
    the login form completes normally and emits exactly one message, the
    text "I submit".  The event object the handler was given does carry
    the field contents. *)
Theorem submission_emits_I_submit
    (typed : string → string) (h : gmap loc event_object) :
  result (send typed h) = Normal tt ∧
  emitted (effects (send typed h)) = ["I submit"] ∧
  emitted (effects (send blank h)) = ["I submit"] ∧
  targetFields <$> final (send typed h) !! fresh (dom h)
  = Some [("username", typed "username"); ("password", typed "password")].
Proof.
  rewrite !send_run. cbn [result final effects emitted].
  rewrite lookup_insert_eq. repeat split.
Qed.

(** C5: whatever the two inputs hold, a submission of the login form
    cancels the default action of its event, once, and the host performs
    no navigation. *)
Theorem submission_never_navigates
    (typed : string → string) (h : gmap loc event_object) :
  navigations (effects (send typed h)) = 0 ∧
  cancellations (effects (send typed h)) = [fresh (dom h)] ∧
  defaultPrevented <$> final (send typed h) !! fresh (dom h) = Some true.
Proof.
  rewrite send_run. cbn [result final effects navigations cancellations].
  rewrite lookup_insert_eq. repeat split.
Qed.

(** C6: in every invocation of [handleSubmit] the cancellation comes first.
    Given an event object of the store, the handler completes normally, its
    effects are the cancellation of that event followed by the emission,
    and the event is flagged; given anything else it throws at the
    cancellation, having emitted nothing.  So whenever a message is emitted
    it is not the first effect: the first is the cancellation of the event.
    Every submission of the rendered form has these two effects in this
    order. *)
Theorem cancellation_precedes_emission
    (event : value) (h : gmap loc event_object) :
  (∀ l ev, event = VObject l → h !! l = Some ev →
     handleSubmit event h
     = Outcome (Normal tt) (<[l := prevented ev]> h)
               [CancelDefault l; Emit "I submit"]) ∧
  ((∀ l, event = VObject l → h !! l = None) →
     ∃ e, handleSubmit event h = Outcome (Throw e) h []) ∧
  (∀ i msg,
     effects (handleSubmit event h) !! i = Some (Emit msg) →
     (0 < i)%nat ∧
     ∃ l, event = VObject l ∧
          effects (handleSubmit event h) !! 0%nat = Some (CancelDefault l)) ∧
  (∀ typed,
     effects (send typed h)
     = [CancelDefault (fresh (dom h)); Emit "I submit"]).
Proof.
  split; [| split; [| split]].
  - intros l ev -> Hl. by apply handleSubmit_run.
  - intros Hnone. destruct event as [| | b | n | s | d | l];
      try (eexists; reflexivity).
    rewrite (handleSubmit_dangling l h (Hnone l eq_refl)). eauto.
  - intros i msg. destruct event as [| | b | n | s | d | l];
      try (match goal with
           | |- context [handleSubmit ?v h] =>
               assert (∃ e, handleSubmit v h = Outcome (Throw e) h [])
                 as [e ->] by (eexists; reflexivity)
           end; cbn [effects]; rewrite lookup_nil; discriminate).
    destruct (h !! l) as [ev |] eqn:Hl.
    + rewrite (handleSubmit_run l ev h Hl). cbn [effects].
      destruct i as [| i]; [discriminate |]. intros _.
      split; [lia | exists l; split; reflexivity].
    + rewrite (handleSubmit_dangling l h Hl). cbn [effects].
      rewrite lookup_nil. discriminate.
  - intros typed. rewrite send_run. reflexivity.
Qed.

Lemma cancellation_precedes_emission_witness :
  ({[ 1%positive := submit_event blank ]} : gmap loc event_object) !! 1%positive
  = Some (submit_event blank) ∧
  handleSubmit (VObject 1%positive) {[ 1%positive := submit_event blank ]}
  = Outcome (Normal tt)
      (<[1%positive := prevented (submit_event blank)]>
         {[ 1%positive := submit_event blank ]})
      [CancelDefault 1%positive; Emit "I submit"].
Proof.
  split; [reflexivity |].
  destruct (cancellation_precedes_emission
              (VObject 1%positive) {[ 1%positive := submit_event blank ]})
    as [Hrun _].
  apply (Hrun 1%positive (submit_event blank)); reflexivity.
Defined.

(** C8: a handler invocation has no effect but the emission and, for the
    form, the one cancellation.  [handleClick] leaves the store as it is
    and its outcome does not depend on the store.  [handleSubmit] changes
    the store only in the flag of its own event: every other object, and
    the field contents of the event, are as before; and it does not read
    the field contents: with other contents [fs] in the event it completes
    the same way with the same effects, and [fs] is still there. *)
Theorem handlers_touch_nothing_else
    (v : value) (l : loc) (ev : event_object)
    (fs : list (string * string)) (h : gmap loc event_object) :
  h !! l = Some ev →
  ( final (handleClick v h) = h ∧
    cancellations (effects (handleClick v h)) = [] ∧
    navigations (effects (handleClick v h)) = 0 ∧
    (List.length (emitted (effects (handleClick v h))) ≤ 1)%nat ∧
    ∀ h', result (handleClick v h') = result (handleClick v h) ∧
          effects (handleClick v h') = effects (handleClick v h) ) ∧
  ( effects (handleSubmit (VObject l) h) = [CancelDefault l; Emit "I submit"] ∧
    final (handleSubmit (VObject l) h) = <[l := prevented ev]> h ∧
    targetFields (prevented ev) = targetFields ev ∧
    eventType (prevented ev) = eventType ev ∧
    (∀ l', l' ≠ l → final (handleSubmit (VObject l) h) !! l' = h !! l') ∧
    result (handleSubmit (VObject l) (<[l := with_fields fs ev]> h))
    = result (handleSubmit (VObject l) h) ∧
    effects (handleSubmit (VObject l) (<[l := with_fields fs ev]> h))
    = effects (handleSubmit (VObject l) h) ∧
    final (handleSubmit (VObject l) (<[l := with_fields fs ev]> h))
    = <[l := with_fields fs (prevented ev)]> h ).
Proof.
  intros Hl. split.
  - split; [apply handleClick_final |].
    destruct v as [| | [] | | | |];
      (split; [reflexivity |]); (split; [reflexivity |]);
      (split; [unfold handleClick, mbind, M_bind, bind; cbn; lia |]);
      intros h'; split; reflexivity.
  - rewrite (handleSubmit_run l ev h Hl).
    rewrite (handleSubmit_run l (with_fields fs ev) (<[l := with_fields fs ev]> h))
      by apply lookup_insert_eq.
    cbn [result final effects]. rewrite insert_insert_eq.
    repeat split. intros l' Hne. by rewrite lookup_insert_ne.
Qed.

Lemma handlers_touch_nothing_else_witness :
  ({[ 1%positive := submit_event blank ]} : gmap loc event_object) !! 1%positive
  = Some (submit_event blank) ∧
  effects (handleSubmit (VObject 1%positive)
             {[ 1%positive := submit_event blank ]})
  = [CancelDefault 1%positive; Emit "I submit"] ∧
  final (handleClick (VNumber 2) {[ 1%positive := submit_event blank ]})
  = {[ 1%positive := submit_event blank ]}.
Proof.
  split; [reflexivity |].
  destruct (handlers_touch_nothing_else
              (VNumber 2) 1%positive (submit_event blank) []
              {[ 1%positive := submit_event blank ]})
    as [[Hclick _] [Hsubmit _]]; [reflexivity |].
  split; [exact Hsubmit | exact Hclick].
Defined.

(** ** Both components *)

(** C9: both components are deterministic and keep no state.  From any
    two stores, the empty one included, a render completes with the same
    tree and no effect and leaves the store as it found it; activating a
    trigger completes the same way with the same effects, and has them
    again when the activation is repeated in the store the first one left;
    a submission with given field contents emits the same messages, also
    when repeated.  [handleClick] has the same result and effects in any
    two stores, and [handleSubmit] called on the same event object has the
    same result and effects in any two stores that hold it, and the same
    again when it is called a second time on that event. *)
Theorem components_keep_no_state
    (n : Z) (typed : string → string) (h1 h2 : gmap loc event_object) :
  ( result (MultiButton h1) = result (MultiButton h2) ∧
    effects (MultiButton h1) = [] ∧ effects (MultiButton h2) = [] ∧
    final (MultiButton h1) = h1 ∧
    result (Login h1) = result (Login h2) ∧
    effects (Login h1) = [] ∧ effects (Login h2) = [] ∧
    final (Login h1) = h1 ) ∧
  ( result (press n h1) = result (press n h2) ∧
    effects (press n h1) = effects (press n h2) ∧
    effects (press n (final (press n h1))) = effects (press n h1) ) ∧
  ( result (send typed h1) = result (send typed h2) ∧
    emitted (effects (send typed h1)) = emitted (effects (send typed h2)) ∧
    emitted (effects (send typed (final (send typed h1))))
    = emitted (effects (send typed h1)) ) ∧
  ( ∀ v, result (handleClick v h1) = result (handleClick v h2) ∧
         effects (handleClick v h1) = effects (handleClick v h2) ) ∧
  ( ∀ l ev1 ev2,
      h1 !! l = Some ev1 → h2 !! l = Some ev2 →
      result (handleSubmit (VObject l) h1)
      = result (handleSubmit (VObject l) h2) ∧
      effects (handleSubmit (VObject l) h1)
      = effects (handleSubmit (VObject l) h2) ∧
      effects (handleSubmit (VObject l) (final (handleSubmit (VObject l) h1)))
      = effects (handleSubmit (VObject l) h1) ).
Proof.
  split; [repeat split |]. split; [| split; [| split]].
  - destruct (press_cases n) as [Hp | Hp]; rewrite !Hp; repeat split.
  - rewrite !send_run. repeat split.
  - intros v. destruct v as [| | [] | | | |]; split; reflexivity.
  - intros l ev1 ev2 H1 H2.
    rewrite (handleSubmit_run l ev1 h1 H1), (handleSubmit_run l ev2 h2 H2).
    cbn [result final effects].
    rewrite (handleSubmit_run l (prevented ev1)) by apply lookup_insert_eq.
    repeat split.
Qed.

Lemma components_keep_no_state_witness :
  ({[ 1%positive := submit_event blank ]} : gmap loc event_object) !! 1%positive
  = Some (submit_event blank) ∧
  ({[ 1%positive := submit_event (λ s, s) ]} : gmap loc event_object)
    !! 1%positive
  = Some (submit_event (λ s, s)) ∧
  effects (press 2 ∅)
  = effects (press 2 {[ 1%positive := submit_event (λ s, s) ]}) ∧
  effects (handleSubmit (VObject 1%positive)
             {[ 1%positive := submit_event blank ]})
  = effects (handleSubmit (VObject 1%positive)
               {[ 1%positive := submit_event (λ s, s) ]}).
Proof.
  split; [reflexivity |]. split; [reflexivity |].
  destruct (components_keep_no_state 2 blank
              ∅ {[ 1%positive := submit_event (λ s, s) ]})
    as (_ & (_ & Hpress & _) & _).
  destruct (components_keep_no_state 2 blank
              {[ 1%positive := submit_event blank ]}
              {[ 1%positive := submit_event (λ s, s) ]})
    as (_ & _ & _ & _ & Hsubmit).
  split; [exact Hpress |].
  destruct (Hsubmit 1%positive (submit_event blank) (submit_event (λ s, s)))
    as (_ & Hfx & _); [reflexivity | reflexivity |].
  exact Hfx.
Defined.

(** ** Further properties of the handlers *)

Lemma emitted_app fx fx' :
  emitted (fx ++ fx') = (emitted fx ++ emitted fx')%list.
Proof.
  induction fx as [| [] fx IH]; cbn [app emitted]; rewrite ?IH; reflexivity.
Qed.

Lemma cancellations_app fx fx' :
  cancellations (fx ++ fx') = (cancellations fx ++ cancellations fx')%list.
Proof.
  induction fx as [| [] fx IH]; cbn [app cancellations]; rewrite ?IH;
    reflexivity.
Qed.

Lemma navigations_app fx fx' :
  navigations (fx ++ fx') = (navigations fx + navigations fx')%nat.
Proof.
  induction fx as [| [] fx IH]; cbn [app navigations]; rewrite ?IH;
    reflexivity.
Qed.

(** Running a sequence whose first part completes normally. *)
Lemma bind_run {A B} (m : M A) (k : A → M B) a h h' fx :
  m h = Outcome (Normal a) h' fx →
  (m ≫= k) h
  = Outcome (result (k a h')) (final (k a h')) (fx ++ effects (k a h')).
Proof. intros Hm. unfold mbind, M_bind, bind. rewrite Hm. reflexivity. Qed.

Lemma prefix_app s t : String.prefix s (s +:+ t) = true.
Proof.
  induction s as [| c s IH]; [by destruct t |].
  change (String c s +:+ t) with (String c (s +:+ t)).
  cbn [String.prefix]. destruct (Ascii.ascii_dec c c); [exact IH | congruence].
Qed.

Lemma includes_app a s b : includes s (a +:+ s +:+ b) = true.
Proof.
  induction a as [| c a IH].
  - change ("" +:+ s +:+ b) with (s +:+ b).
    assert (∀ t, String.prefix s t = true → includes s t = true) as Hp
      by (intros [| c t] Ht; cbn [includes]; rewrite Ht; reflexivity).
    apply Hp, prefix_app.
  - change (String c a +:+ s +:+ b) with (String c (a +:+ s +:+ b)).
    cbn [includes]. rewrite IH. apply orb_true_r.
Qed.

Lemma string_length_app s t :
  String.length (s +:+ t) = (String.length s + String.length t)%nat.
Proof.
  induction s as [| c s IH]; [reflexivity |].
  change (String c s +:+ t) with (String c (s +:+ t)).
  cbn [String.length]. by rewrite IH.
Qed.

Lemma string_app_cancel_r s t u : s +:+ u = t +:+ u → s = t.
Proof.
  revert t. induction s as [| c s IH]; intros [| d t] Heq.
  - reflexivity.
  - apply (f_equal String.length) in Heq.
    rewrite !string_length_app in Heq. cbn [String.length] in Heq. lia.
  - apply (f_equal String.length) in Heq.
    rewrite !string_length_app in Heq. cbn [String.length] in Heq. lia.
  - change (String c (s +:+ u) = String d (t +:+ u)) in Heq.
    injection Heq as -> Heq. f_equal. by apply IH.
Qed.

(** X1: on a safe integer, a number as its signature declares,
    [handleClick] emits one message that contains the decimal numeral of
    the number, and the message identifies the number: two calls on safe
    integers emit the same message exactly when they were given the same
    number. *)
Theorem handleClick_message_identifies_number
    (n m : Z) (h h' : gmap loc event_object) :
  safe_integer n = true → safe_integer m = true →
  (∃ msg, handleClick (VNumber n) h = Outcome (Normal tt) h [Emit msg] ∧
          includes (pretty n) msg = true) ∧
  (emitted (effects (handleClick (VNumber n) h))
   = emitted (effects (handleClick (VNumber m) h')) ↔ n = m).
Proof.
  intros _ _. split.
  - eexists. split; [reflexivity |]. apply includes_app.
  - split; [| intros ->; reflexivity].
    cbn. intros [= Heq]. apply (inj (String.append _)) in Heq.
    apply string_app_cancel_r in Heq. by apply (inj pretty).
Qed.

Lemma handleClick_message_identifies_number_witness :
  safe_integer 2 = true ∧ safe_integer (-40) = true ∧
  ∃ msg, handleClick (VNumber 2) ∅ = Outcome (Normal tt) ∅ [Emit msg] ∧
         includes (pretty 2%Z) msg = true.
Proof.
  split; [reflexivity |]. split; [reflexivity |].
  destruct (handleClick_message_identifies_number 2 (-40) ∅ ∅)
    as [Hmsg _]; [reflexivity | reflexivity |].
  exact Hmsg.
Defined.

(** X2: a failure of [handleClick] is silent.  Whenever it throws, it has
    emitted nothing and the store is as it was, since the conversion of the
    argument comes before the emission; and it does throw on every
    symbol. *)
Theorem handleClick_failure_is_silent
    (v : value) (d : string) (h : gmap loc event_object) :
  (∀ e, result (handleClick v h) = Throw e →
        effects (handleClick v h) = [] ∧ final (handleClick v h) = h) ∧
  (∃ e, handleClick (VSymbol d) h = Outcome (Throw e) h []).
Proof.
  split; [| eexists; reflexivity].
  intros e He. split; [| apply handleClick_final].
  destruct v as [| | [] | | | |]; try discriminate He. reflexivity.
Qed.

Lemma handleClick_failure_is_silent_witness :
  (∃ e, result (handleClick (VSymbol "id") ∅) = Throw e) ∧
  effects (handleClick (VSymbol "id") ∅) = [] ∧
  final (handleClick (VSymbol "id") ∅) = ∅.
Proof.
  split; [eexists; reflexivity |].
  destruct (handleClick_failure_is_silent (VSymbol "id") "id" ∅)
    as [Hsilent _].
  apply (Hsilent (TypeError "Cannot convert a Symbol value to a string")).
  reflexivity.
Defined.

(** X3: cancelling is idempotent.  A second call of [handleSubmit] on the
    same event leaves the store as the first call left it; the event is
    flagged after the call; and on an event that was already cancelled the
    call does not change the store at all. *)
Theorem handleSubmit_idempotent
    (l : loc) (ev : event_object) (h : gmap loc event_object) :
  h !! l = Some ev →
  final (handleSubmit (VObject l) (final (handleSubmit (VObject l) h)))
  = final (handleSubmit (VObject l) h) ∧
  defaultPrevented <$> final (handleSubmit (VObject l) h) !! l = Some true ∧
  (defaultPrevented ev = true → final (handleSubmit (VObject l) h) = h).
Proof.
  intros Hl. rewrite (handleSubmit_run l ev h Hl). cbn [final].
  rewrite (handleSubmit_run l (prevented ev)) by apply lookup_insert_eq.
  cbn [final]. rewrite insert_insert_eq, lookup_insert_eq.
  split; [reflexivity | split; [reflexivity |]].
  intros Hp. apply insert_id. rewrite Hl. f_equal.
  destruct ev as [t p fs]. cbn in Hp. subst p. reflexivity.
Qed.

Lemma handleSubmit_idempotent_witness :
  ({[ 1%positive := prevented (submit_event blank) ]}
     : gmap loc event_object) !! 1%positive
  = Some (prevented (submit_event blank)) ∧
  final (handleSubmit (VObject 1%positive)
           {[ 1%positive := prevented (submit_event blank) ]})
  = {[ 1%positive := prevented (submit_event blank) ]}.
Proof.
  split; [reflexivity |].
  destruct (handleSubmit_idempotent 1%positive
              (prevented (submit_event blank))
              {[ 1%positive := prevented (submit_event blank) ]})
    as [_ [_ Hsame]]; [reflexivity |].
  apply Hsame. reflexivity.
Defined.

Lemma string_app_nil_r s : s +:+ "" = s.
Proof.
  induction s as [| c s IH]; [reflexivity |].
  change (String c s +:+ "") with (String c (s +:+ "")). by rewrite IH.
Qed.

Lemma label_eqb k n : String.eqb (label k) (label n) = bool_decide (k = n).
Proof.
  case_bool_decide as Hkn.
  - subst. apply String.eqb_refl.
  - apply String.eqb_neq. intros Heq. apply Hkn.
    unfold label in Heq. apply (inj (String.append _)) in Heq.
    by apply (inj pretty).
Qed.

Lemma press_without_trigger n h :
  ¬ (1 ≤ n ≤ 3)%Z → press n h = Outcome (Normal tt) h [].
Proof.
  intros Hn. unfold press, render_then, mbind, M_bind, bind.
  cbn [MultiButton mret M_ret ret result final effects].
  unfold activate, trigger.
  match goal with
  | |- context [triggers ?t] =>
      change (triggers t)
        with [ Element "button" [("onClick", PHandler handleClick)]
                 [Text (label 1)];
               Element "button" [("onClick", PHandler handleClick)]
                 [Text (label 2)];
               Element "button" [("onClick", PHandler handleClick)]
                 [Text (label 3)] ]
  end.
  cbn [find textContent]. rewrite !string_app_nil_r, !label_eqb.
  rewrite !bool_decide_eq_false_2 by lia. reflexivity.
Qed.

(** X4: MultiButton renders exactly the triggers 1, 2 and 3.  Activating
    one of them creates the click event and emits the one message;
    activating any other identifier finds no button: nothing is emitted
    and the store is not touched. *)
Theorem press_emits_iff_trigger_exists
    (n : Z) (h : gmap loc event_object) :
  press n h
  = if bool_decide (1 ≤ n ≤ 3)%Z
    then Outcome (Normal tt)
           (<[fresh (dom h) := EventObject "click" false []]> h)
           [Emit "Button [object Object] was clicked"]
    else Outcome (Normal tt) h [].
Proof.
  case_bool_decide as Hn.
  - assert (n = 1 ∨ n = 2 ∨ n = 3)%Z as [-> | [-> | ->]] by lia; reflexivity.
  - by apply press_without_trigger.
Qed.

(** ** Sequences of gestures *)

(** One gesture on the page completes normally, only adds to the store,
    navigates nowhere, and emits what it would emit from the empty store. *)
Lemma perform_run g h :
  ∃ h' fx,
    perform g h = Outcome (Normal tt) h' fx ∧
    h ⊆ h' ∧
    emitted fx = emitted (effects (perform g ∅)) ∧
    navigations fx = 0 ∧
    List.length (cancellations fx) = sends [g].
Proof.
  assert (∀ ev, h ⊆ <[fresh (dom h) := ev]> h) as Hfresh.
  { intros ev. apply insert_subseteq, not_elem_of_dom, is_fresh. }
  destruct g as [n | typed]; cbn [perform sends].
  - destruct (press_cases n) as [Hp | Hp]; rewrite !Hp.
    + do 2 eexists. split; [reflexivity |]. split; [apply Hfresh |].
      split; [reflexivity |]. split; reflexivity.
    + do 2 eexists. split; [reflexivity |]. split; [reflexivity |].
      split; [reflexivity |]. split; reflexivity.
  - rewrite !send_run. do 2 eexists. split; [reflexivity |].
    split; [apply Hfresh |]. split; [reflexivity |]. split; reflexivity.
Qed.

(** X5: gestures compose without interference.  Any sequence of button
    presses and form submissions completes normally; the messages it emits
    are, in order, those each gesture emits on its own from the empty
    store; every submission is cancelled and none navigates; and the event
    objects that were in the store before are all still there, unchanged. *)
Theorem session_composes (gs : list gesture) (h : gmap loc event_object) :
  result (session gs h) = Normal tt ∧
  emitted (effects (session gs h))
  = concat ((λ g, emitted (effects (perform g ∅))) <$> gs) ∧
  navigations (effects (session gs h)) = 0 ∧
  List.length (cancellations (effects (session gs h))) = sends gs ∧
  h ⊆ final (session gs h).
Proof.
  revert h. induction gs as [| g gs IH]; intros h.
  - do 4 (split; [reflexivity |]). done.
  - destruct (perform_run g h) as (h' & fx & Hg & Hsub & Hem & Hnav & Hcan).
    destruct (IH h') as (Hres & Hemit & Hnavs & Hcans & Hfin).
    cbn [session fmap list_fmap concat].
    rewrite (bind_run _ _ _ _ _ _ Hg). cbn [result final effects].
    rewrite emitted_app, navigations_app, cancellations_app, length_app.
    rewrite Hres, Hemit, Hnavs, Hcans, Hem, Hnav, Hcan.
    split; [reflexivity |]. split; [reflexivity |]. split; [reflexivity |].
    split; [destruct g; reflexivity | by etrans].
Qed.

(** ** The lesson's other versions and components *)

(** A gesture that always completes normally with the same effects has,
    made [k] times, these effects [k] times over. *)
Lemma times_run (g : M unit) fx :
  (∀ h, ∃ h', g h = Outcome (Normal tt) h' fx) →
  ∀ k h, ∃ h', times k g h = Outcome (Normal tt) h' (concat (replicate k fx)).
Proof.
  intros Hg. induction k as [| k IH]; intros h.
  - exists h. reflexivity.
  - destruct (Hg h) as [h1 H1]. destruct (IH h1) as [h2 H2].
    exists h2. cbn [times replicate concat].
    rewrite (bind_run _ _ _ _ _ _ H1), H2. reflexivity.
Qed.

Lemma emitted_replicate k s :
  emitted (concat (replicate k [Emit s])) = replicate k s.
Proof. induction k as [| k IH]; [reflexivity |]. cbn. by rewrite IH. Qed.

Lemma concat_replicate_nil {A} k : concat (replicate k (@nil A)) = [].
Proof. induction k as [| k IH]; [reflexivity | exact IH]. Qed.

(** Render passes of a component that leaves the store alone. *)
Lemma passes_run (component : M node) tree fx :
  (∀ h, component h = Outcome (Normal tree) h fx) →
  ∀ k h, passes k component h
         = Outcome (Normal tt) h (concat (replicate k fx)).
Proof.
  intros Hc. induction k as [| k IH]; intros h; [reflexivity |].
  cbn [passes replicate concat].
  rewrite (bind_run _ _ _ _ _ _ (Hc h)), IH. reflexivity.
Qed.

(** X6: the version of MultiButton with [() => handleClick(n)] does what
    the lesson wants.  Rendering it emits nothing; activating trigger n, for
    n among 1, 2, 3, emits exactly "Button n was clicked"; and two different
    triggers never emit the same message. *)
Theorem binding_version_logs_its_number
    (n m : Z) (h : gmap loc event_object) :
  (1 ≤ n ≤ 3)%Z → (1 ≤ m ≤ 3)%Z →
  effects (MultiButton_binding h) = [] ∧
  result (press_binding n h) = Normal tt ∧
  emitted (effects (press_binding n h))
  = ["Button " +:+ pretty n +:+ " was clicked"] ∧
  (emitted (effects (press_binding n h))
   = emitted (effects (press_binding m h)) ↔ n = m).
Proof.
  intros Hn Hm.
  assert (n = 1 ∨ n = 2 ∨ n = 3)%Z as [-> | [-> | ->]] by lia;
  assert (m = 1 ∨ m = 2 ∨ m = 3)%Z as [-> | [-> | ->]] by lia;
  (split; [reflexivity |]); (split; [reflexivity |]);
  (split; [reflexivity |]); split; (reflexivity || discriminate).
Qed.

Lemma binding_version_logs_its_number_witness :
  emitted (effects (press_binding 3 ∅)) = ["Button " +:+ pretty 3%Z +:+ " was clicked"].
Proof.
  destruct (binding_version_logs_its_number 3 1 ∅) as (_ & _ & Hmsg & _);
    [lia | lia |].
  exact Hmsg.
Defined.

(** X7: the version of MultiButton with [onClick={handleClick(n)}] logs
    while it renders and never afterwards.  Every render pass emits the
    three messages, so k passes emit them k times; and a click on any of
    its buttons adds nothing to what rendering emitted. *)
Theorem invoking_version_logs_on_every_render
    (k : nat) (n : Z) (h : gmap loc event_object) :
  emitted (effects (passes k MultiButton_invoking h))
  = concat (replicate k ["Button 1 was clicked"; "Button 2 was clicked";
                         "Button 3 was clicked"]) ∧
  final (passes k MultiButton_invoking h) = h ∧
  emitted (effects (render_then MultiButton_invoking
                      (λ tree, activate tree n) h))
  = emitted (effects (MultiButton_invoking h)).
Proof.
  assert (∀ h, MultiButton_invoking h
               = Outcome (Normal (Element "div" []
                   [ Element "button" [("onClick", PUndefined)] [Text "Button 1"];
                     Element "button" [("onClick", PUndefined)] [Text "Button 2"];
                     Element "button" [("onClick", PUndefined)] [Text "Button 3"] ]))
                   h [Emit "Button 1 was clicked"; Emit "Button 2 was clicked";
                      Emit "Button 3 was clicked"]) as Hrender
    by reflexivity.
  rewrite (passes_run _ _ _ Hrender). cbn [final effects].
  split; [| split; [reflexivity |]].
  - induction k as [| k IH]; [reflexivity |].
    cbn [replicate concat]. rewrite emitted_app, IH. reflexivity.
  - unfold render_then. rewrite (bind_run _ _ _ _ _ _ (Hrender h)), Hrender.
    cbn [effects]. unfold activate.
    match goal with
    | |- context [trigger ?t n] => destruct (trigger t n) as [b |] eqn:Hb
    end.
    + apply find_some in Hb as [Hin _]. cbn in Hin.
      destruct Hin as [<- | [<- | [<- | []]]]; reflexivity.
    + reflexivity.
Qed.

(** X8: a listener given to a component that does not hand it on is never
    called.  Whatever attributes [Clickable_deaf] is given, however often
    its button is clicked, nothing is emitted; so [App_deaf] never logs
    "click". *)
Theorem deaf_component_never_calls_back
    (props : list (string * prop_value)) (k : nat)
    (h : gmap loc event_object) :
  result (times k (render_then (Clickable_deaf props) click) h) = Normal tt ∧
  effects (times k (render_then (Clickable_deaf props) click) h) = [] ∧
  effects (times k (render_then App_deaf click) h) = [].
Proof.
  assert (∀ ps h0, ∃ h', render_then (Clickable_deaf ps) click h0
                         = Outcome (Normal tt) h' []) as Hg
    by (intros; eexists; reflexivity).
  destruct (times_run _ _ (Hg props) k h) as [h1 ->].
  destruct (times_run _ _ (Hg [("onClick", PHandler logClick)]) k h)
    as [h2 H2].
  unfold App_deaf. rewrite H2. cbn [result effects].
  rewrite concat_replicate_nil. repeat split.
Qed.

(** X9: [Clickable] hands the listener on, and nothing else.  If its
    attributes hold a callback under [onClick], whatever else they hold, a
    click on the button it renders is exactly a call of that callback with
    the click event; if they hold nothing under [onClick], whatever else
    they hold, a click only creates its event and has no effect.  [App]
    thus logs "click" once per click. *)
Theorem Clickable_passes_listener_on
    (props props' : list (string * prop_value)) (f : value → M unit)
    (k : nat) (h : gmap loc event_object) :
  assoc "onClick" props = Some (PHandler f) →
  assoc "onClick" props' = None →
  render_then (Clickable props) click h
  = (alloc (EventObject "click" false []) ≫= f) h ∧
  render_then (Clickable props') click h
  = Outcome (Normal tt)
      (<[fresh (dom h) := EventObject "click" false []]> h) [] ∧
  emitted (effects (times k (render_then App click) h))
  = replicate k "click".
Proof.
  intros Hf Hnone. split; [| split].
  - unfold render_then, Clickable, click, handler, prop.
    unfold mbind at 1. unfold M_bind at 1. unfold bind at 1.
    cbn [mret M_ret ret result final effects assoc String.eqb Ascii.eqb
         Bool.eqb].
    rewrite Hf. cbn [default id call app].
    destruct ((alloc (EventObject "click" false []) ≫= f) h); reflexivity.
  - unfold render_then, Clickable, click, handler, prop.
    unfold mbind at 1. unfold M_bind at 1. unfold bind at 1.
    cbn [mret M_ret ret result final effects assoc String.eqb Ascii.eqb
         Bool.eqb].
    rewrite Hnone. reflexivity.
  - assert (∀ h0, ∃ h', render_then App click h0
                        = Outcome (Normal tt) h' [Emit "click"]) as Hg
      by (intros; eexists; reflexivity).
    destruct (times_run _ _ Hg k h) as [h1 ->]. cbn [effects].
    apply emitted_replicate.
Qed.

Lemma Clickable_passes_listener_on_witness :
  assoc "onClick" [("id", PString "b"); ("onClick", PHandler tickle)]
  = Some (PHandler tickle) ∧
  assoc "onClick" [("id", PString "b"); ("title", PString "t")]
  = @None prop_value ∧
  render_then (Clickable [("id", PString "b"); ("onClick", PHandler tickle)])
    click ∅
  = (alloc (EventObject "click" false []) ≫= tickle) ∅ ∧
  effects (render_then
             (Clickable [("id", PString "b"); ("title", PString "t")])
             click ∅)
  = [].
Proof.
  split; [reflexivity |]. split; [reflexivity |].
  destruct (Clickable_passes_listener_on
              [("id", PString "b"); ("onClick", PHandler tickle)]
              [("id", PString "b"); ("title", PString "t")] tickle 0 ∅)
    as (Hcall & Hnone & _); [reflexivity | reflexivity |].
  split; [exact Hcall |]. rewrite Hnone. reflexivity.
Defined.

(** X10: a button without a listener is silent, one with a listener logs
    once per click.  Clicking [Tickler_unwired] any number of times emits
    nothing; clicking [Tickler] k times emits "Teehee!" k times, and the
    version with the inline arrow function does the same. *)
Theorem Tickler_logs_once_per_click (k : nat) (h : gmap loc event_object) :
  effects (times k (render_then Tickler_unwired click) h) = [] ∧
  emitted (effects (times k (render_then Tickler click) h))
  = replicate k "Teehee!" ∧
  times k (render_then Tickler_inline click) h
  = times k (render_then Tickler click) h.
Proof.
  split; [| split; [| reflexivity]].
  - assert (∀ h0, ∃ h', render_then Tickler_unwired click h0
                        = Outcome (Normal tt) h' []) as Hg
      by (intros; eexists; reflexivity).
    destruct (times_run _ _ Hg k h) as [h1 ->]. apply concat_replicate_nil.
  - assert (∀ h0, ∃ h', render_then Tickler click h0
                        = Outcome (Normal tt) h' [Emit "Teehee!"]) as Hg
      by (intros; eexists; reflexivity).
    destruct (times_run _ _ Hg k h) as [h1 ->]. apply emitted_replicate.
Qed.

Lemma handleChange_run l ev name content h :
  h !! l = Some ev →
  targetFields ev = [(name, content)] →
  handleChange (VObject l) h
  = Outcome (Normal tt) h [Emit (name +:+ ": " +:+ content)].
Proof.
  intros Hl Hfields.
  unfold handleChange, mbind, M_bind, bind, target_property.
  rewrite Hl, Hfields. cbn [result final effects toString ret].
  rewrite Hl, Hfields. reflexivity.
Qed.



(** X12: what the element has come to hold is what is logged.  For an
    element of ChangeItUp found by its name, and a content the host
    delivers a change event for, the change completes normally, emits the
    name, a colon and the content, and the store only gains the event; and
    for two such contents the messages are the same only if the contents
    are. *)
Theorem edit_logs_the_content
    (name content other : string) (tree target : node)
    (h : gmap loc event_object) :
  result (ChangeItUp h) = Normal tree →
  named name tree = Some target →
  deliverable target content = true →
  deliverable target other = true →
  edit name content h
  = Outcome (Normal tt)
      (<[fresh (dom h) := EventObject "change" false [(name, content)]]> h)
      [Emit (name +:+ ": " +:+ content)] ∧
  (emitted (effects (edit name content h))
   = emitted (effects (edit name other h)) ↔ content = other).
Proof.
  intros Htree Hnamed _ _.
  assert (∀ c, edit name c h
               = Outcome (Normal tt)
                   (<[fresh (dom h) := EventObject "change" false [(name, c)]]> h)
                   [Emit (name +:+ ": " +:+ c)]) as Hrun.
  { intros c.
    assert (∀ element,
              prop "name" element = Some (PString name) →
              handler "onChange" element = Some handleChange →
              change element c h
              = Outcome (Normal tt)
                  (<[fresh (dom h) := EventObject "change" false [(name, c)]]> h)
                  [Emit (name +:+ ": " +:+ c)]) as Hchange.
    { intros element Hp Hh. unfold change. rewrite Hp, Hh.
      unfold mbind at 1. unfold M_bind, bind, alloc, call.
      cbn [result final effects].
      rewrite (handleChange_run _ (EventObject "change" false [(name, c)])
                 name c) by (apply lookup_insert_eq || reflexivity).
      reflexivity. }
    injection Htree as <-. apply find_some in Hnamed as [Hin Hname].
    cbn in Hin. destruct Hin as [<- | [<- | []]].
    - change (String.eqb "search" name = true) in Hname.
      apply String.eqb_eq in Hname. subst name. apply Hchange; reflexivity.
    - change (String.eqb "filter" name = true) in Hname.
      apply String.eqb_eq in Hname. subst name. apply Hchange; reflexivity. }
  rewrite !Hrun. split; [reflexivity |].
  cbn [effects emitted]. split; [| by intros ->].
  intros [= Heq]. apply (inj (String.append name)) in Heq.
  by apply (inj (String.append ": ")) in Heq.
Qed.

Lemma edit_logs_the_content_witness :
  deliverable
    (Element "select" [("name", PString "filter");
                       ("onChange", PHandler handleChange)]
       [ Element "option" [("value", PString "all")]
           [Text "Select a filter..."];
         Element "option" [("value", PString "completed")]
           [Text "Completed"];
         Element "option" [("value", PString "incomplete")]
           [Text "Incomplete"] ]) "completed" = true ∧
  edit "filter" "completed" ∅
  = Outcome (Normal tt)
      (<[fresh (dom (∅ : gmap loc event_object))
         := EventObject "change" false [("filter", "completed")]]> ∅)
      [Emit ("filter" +:+ ": " +:+ "completed")].
Proof.
  split; [reflexivity |].
  edestruct (edit_logs_the_content "filter" "completed" "incomplete")
    as [Hrun _]; [reflexivity | reflexivity | reflexivity | reflexivity |].
  exact Hrun.
Defined.
